(** * The [runnable!] test wrapper of the playground (src/src/util.rs)

    The macro

<<
    #[macro_export] macro_rules! runnable {
        ($name: ident, $exp: expr) => (
            #[test] fn $name(){
                let test_name = stringify!($name);
                println!("{} [start]", test_name);
                let start_time = std::time::Instant::now();
                $exp
                let end_time = std::time::Instant::now();
                println!(
                    "{} [end]: took {} ms...",
                    test_name,
                    end_time.duration_since(start_time).as_millis()
                );
            }
        );
    }
>>

    expands one named block into a [#[test]] function of the enclosing
    module.  We embed the expanded function as a computation in a small
    state-and-panic monad over the world the test runs in (the standard
    output stream, the monotonic clock), and the expansion itself as an
    insertion into the value namespace of the enclosing module. *)

From Stdlib Require Import Ascii String List NArith ZArith Lia Bool.
From Stdlib Require Import DecimalString.
Import ListNotations.

Open Scope string_scope.

(** ** The parts of [std] the wrapper uses *)

Module Std.

(** [std::time::Instant] on the monotonic clock, in nanoseconds. *)
Definition Instant := N.

(** [std::time::Duration]: whole seconds and the sub-second nanoseconds. *)
Record Duration := mkDuration { secs : N; nanos : N }.

Definition NANOS_PER_SEC : N := 1000000000.
Definition NANOS_PER_MILLI : N := 1000000.
Definition MILLIS_PER_SEC : N := 1000.

Definition from_nanos (n : N) : Duration :=
  mkDuration (n / NANOS_PER_SEC) (n mod NANOS_PER_SEC).

(** [Instant::duration_since]: the span from [earlier] to [self]; it
    saturates to zero when [earlier] is later than [self]. *)
Definition duration_since (self earlier : Instant) : Duration :=
  from_nanos (self - earlier)%N.

(** [Duration::as_millis] (a [u128]): whole milliseconds, the sub-millisecond
    part dropped. *)
Definition as_millis (d : Duration) : N :=
  (secs d * MILLIS_PER_SEC + nanos d / NANOS_PER_MILLI)%N.

(** [Display] of an unsigned integer: its decimal digits. *)
Definition fmt_u128 (n : N) : string :=
  NilZero.string_of_uint (N.to_uint n).

End Std.

Import Std.

(** ** The world a test runs in *)

(** The effects a run leaves behind, in the order they happen: a line
    written to standard output, a reading of the monotonic clock, and marks
    that a logic may record (used to observe when a logic is entered). *)
Inductive event :=
| EvOut (line : string)
| EvNow (t : Instant)
| EvMark (tag : nat).

Record world := mkWorld {
  trace : list event;          (* the effects performed so far *)
  stdout_writable : bool;      (* whether a write to stdout succeeds *)
  clock : Instant;             (* the monotonic clock *)
  write_time : string -> N     (* how long writing a line to stdout takes *)
}.

(** A computation either completes with a value or panics (unwinds) with a
    message; either way the world it leaves is returned. *)
Inductive outcome (A : Type) :=
| Done (a : A)
| Panic (msg : string).
Arguments Done {A} a.
Arguments Panic {A} msg.

Definition M (A : Type) := world -> outcome A * world.

Definition ret {A} (a : A) : M A := fun w => (Done a, w).

(** Sequencing: a panic unwinds past the rest of the block unchanged. *)
Definition bind {A B} (m : M A) (k : A -> M B) : M B :=
  fun w => match m w with
           | (Done a, w') => k a w'
           | (Panic msg, w') => (Panic msg, w')
           end.

Notation "x <- m ;; k" := (bind m (fun x => k))
  (at level 61, m at next level, right associativity).
Notation "m ;;; k" := (bind m (fun _ => k))
  (at level 61, right associativity).

Definition log (e : event) (w : world) : world :=
  mkWorld (trace w ++ [e])%list (stdout_writable w) (clock w) (write_time w).

Definition advance (dt : N) (w : world) : world :=
  mkWorld (trace w) (stdout_writable w) (clock w + dt)%N (write_time w).

(** A mark a logic can record; it changes nothing else. *)
Definition mark (tag : nat) : M unit := fun w => (Done tt, log (EvMark tag) w).

Definition println_panic_msg : string := "failed printing to stdout".

(** ** The wrapper *)

(** [println!]: writes the line, or panics when writing to stdout fails. *)
Definition println (line : string) : M unit :=
  fun w => if stdout_writable w
           then (Done tt, advance (write_time w line) (log (EvOut line) w))
           else (Panic println_panic_msg, w).

(** [Instant::now()]. *)
Definition now : M Instant := fun w => (Done (clock w), log (EvNow (clock w)) w).

Definition start_line (test_name : string) : string :=
  test_name ++ " [start]".

Definition end_line (test_name : string) (ms : N) : string :=
  test_name ++ " [end]: took " ++ fmt_u128 ms ++ " ms...".

(** The body of [fn $name()] produced by [runnable!($name, $exp)]; [name] is
    [stringify!($name)].  The block [$exp] sits in statement position of a
    function returning [()], so it is unit-valued. *)
Definition runnable (name : string) (exp : M unit) : M unit :=
  let test_name := name in
  println (start_line test_name) ;;;
  start_time <- now ;;
  exp ;;;
  end_time <- now ;;
  println (end_line test_name (as_millis (duration_since end_time start_time))).

(** ** Registration: the expansion as an item of the enclosing module *)

(** An item of the value namespace of a module: its name and, for the items
    [runnable!] produces, the body of the [#[test]] function. *)
Record item := mkItem { item_name : string; item_body : M unit }.

(** The value namespace of one module (the registration scope). *)
Definition scope := list item.

Definition declared (s : scope) (n : string) : bool :=
  existsb (fun it => String.eqb (item_name it) n) s.

(** [runnable!(name, exp)] inside a module: it adds the item
    [#[test] fn name()], whose body is [runnable name exp]; the body is not
    run.  A second item of the same name in one module is refused by the
    compiler (error E0428, "the name is defined multiple times"). *)
Definition register (name : string) (exp : M unit) (s : scope) : option scope :=
  if declared s name then None
  else Some (s ++ [mkItem name (runnable name exp)])%list.

(** Registration as a step of the whole program state (the module's items
    and the world): the expansion happens at compile time and touches only
    the items. *)
Definition register_st (name : string) (exp : M unit) (st : scope * world)
  : option (scope * world) :=
  match register name exp (fst st) with
  | Some s' => Some (s', snd st)
  | None => None
  end.

(** The harness selects a test by its name and runs its body. *)
Definition invoke (s : scope) (n : string) : option (M unit) :=
  match find (fun it => String.eqb (item_name it) n) s with
  | Some it => Some (item_body it)
  | None => None
  end.

(** ** Sample logics and worlds *)

(** An empty block [{}]. *)
Definition skip : M unit := ret tt.

(** A logic that spends [dt] nanoseconds and completes. *)
Definition spin (dt : N) : M unit := fun w => (Done tt, advance dt w).

(** [panic!(msg)]. *)
Definition panic (msg : string) : M unit := fun w => (Panic msg, w).

(** A logic that completes normally while the reader of standard output
    goes away (the stream is no longer writable afterwards). *)
Definition stdout_closed_meanwhile : M unit :=
  fun w => (Done tt, mkWorld (trace w) false (clock w) (write_time w)).

(** A fresh world: nothing done yet, the clock at [t], writes taking [wt]
    nanoseconds each. *)
Definition world0 (ok : bool) (t wt : N) : world :=
  mkWorld [] ok t (fun _ => wt).

Definition outs (l : list event) : list string :=
  flat_map (fun e => match e with EvOut s => [s] | _ => [] end) l.

Example fmt_u128_ex : fmt_u128 1234 = "1234" /\ fmt_u128 0 = "0".
Proof. split; reflexivity. Qed.

Example runnable_ex :
  outs (trace (snd (runnable "t" (spin 52000000) (world0 true 7 300)))) =
  ["t [start]"; "t [end]: took 52 ms..."].
Proof. reflexivity. Qed.

(** ** Two invocations on two threads

    To speak of concurrent runs, the same expansion is also embedded one
    atomic step at a time.  A thread is what is left of a test function: it
    has finished, panicked, or its next atomic step is a [println!] (one
    line, written under the lock of [Stdout]) or a reading of the shared
    monotonic clock [Instant::now()], whose result the rest depends on.
    Standard output is writable throughout. *)

Module Concurrent.

Inductive thread :=
| TDone
| TPanic (msg : string)
| TOut (line : string) (k : thread)
| TNow (k : Instant -> thread).

(** [a; b] for a unit-valued [a]. *)
Fixpoint tseq (p k : thread) : thread :=
  match p with
  | TDone => k
  | TPanic m => TPanic m
  | TOut l p' => TOut l (tseq p' k)
  | TNow f => TNow (fun t => tseq (f t) k)
  end.

(** The body of [fn $name()] produced by [runnable!($name, $exp)]. *)
Definition runnable_thread (name : string) (exp : thread) : thread :=
  let test_name := name in
  TOut (start_line test_name)
    (TNow (fun start_time =>
       tseq exp
         (TNow (fun end_time =>
            TOut (end_line test_name (as_millis (duration_since end_time start_time)))
              TDone)))).

(** The sequential reading of a thread, in the monad of the wrapper. *)
Fixpoint interp (p : thread) : M unit :=
  match p with
  | TDone => ret tt
  | TPanic m => panic m
  | TOut l k => println l ;;; interp k
  | TNow f => t <- now ;; interp (f t)
  end.

(** One atomic step of a thread when the shared clock reads [clk]: the
    effect it has and what is left of the thread; none once it has
    finished. *)
Definition step (p : thread) (clk : Instant) : option (event * thread) :=
  match p with
  | TOut l k => Some (EvOut l, k)
  | TNow f => Some (EvNow clk, f clk)
  | _ => None
  end.

(** The state two invocations share: the clock and standard output, and
    what is left of each thread.  [events] records each effect with the
    thread that performed it ([true] for the first), for the statements
    only: the program never reads it. *)
Record state := mkState {
  shared_clock : Instant;
  stdout : list string;
  thr1 : thread;
  thr2 : thread;
  events : list (bool * event)
}.

(** A schedule: at each point, how far the clock moves on and which thread
    performs its next atomic step. *)
Definition schedule := list (bool * N).

Fixpoint run (sched : schedule) (st : state) : state :=
  match sched with
  | [] => st
  | (i, dt) :: sched' =>
      let clk := (shared_clock st + dt)%N in
      match step (if i then thr1 st else thr2 st) clk with
      | None => run sched' (mkState clk (stdout st) (thr1 st) (thr2 st) (events st))
      | Some (e, p') =>
          let out := match e with
                     | EvOut l => (stdout st ++ [l])%list
                     | _ => stdout st
                     end in
          run sched' (mkState clk out
                        (if i then p' else thr1 st) (if i then thr2 st else p')
                        (events st ++ [(i, e)])%list)
      end
  end.

(** Two invocations started together on a clock reading [clk0]. *)
Definition start2 (clk0 : Instant) (p q : thread) : state := mkState clk0 [] p q [].

(** The effects of one thread, in order. *)
Definition proj (i : bool) (T : list (bool * event)) : list event :=
  map snd (filter (fun ie => Bool.eqb (fst ie) i) T).

(** Whether a thread, given the clock readings in [tr], performs exactly
    the effects [tr]; what is left of it afterwards. *)
Fixpoint replay (p : thread) (tr : list event) {struct tr} : option thread :=
  match tr with
  | [] => Some p
  | e :: tr' =>
      match p, e with
      | TOut l k, EvOut l' => if String.eqb l l' then replay k tr' else None
      | TNow f, EvNow t => replay (f t) tr'
      | _, _ => None
      end
  end.

End Concurrent.

(** ** Other code of the playground *)

(** Integer arithmetic as [cargo test] and [cargo run] compile it (the
    debug profile: overflow checks on), on unsigned types of maximum [max]. *)
Definition U8_MAX : N := 255.
Definition U32_MAX : N := 4294967295.
Definition USIZE_MAX : N := 18446744073709551615.

Definition add_overflow_msg : string := "attempt to add with overflow".
Definition sub_overflow_msg : string := "attempt to subtract with overflow".

Definition checked_add (max x y : N) : option N :=
  if (x + y <=? max)%N then Some (x + y)%N else None.

Definition checked_sub (x y : N) : option N :=
  if (y <=? x)%N then Some (x - y)%N else None.

(** [x + y]: panics on overflow. *)
Definition uadd (max x y : N) : outcome N :=
  match checked_add max x y with Some s => Done s | None => Panic add_overflow_msg end.

(** [x - y]: panics on underflow. *)
Definition usub (x y : N) : outcome N :=
  match checked_sub x y with Some d => Done d | None => Panic sub_overflow_msg end.

Definition obind {A B} (o : outcome A) (k : A -> outcome B) : outcome B :=
  match o with Done a => k a | Panic m => Panic m end.

(** [Result<T, E>]. *)
Inductive result (T E : Type) :=
| Ok (t : T)
| Err (e : E).
Arguments Ok {T E} t.
Arguments Err {T E} e.

(** *** src/src/errors.rs *)

Module Errors.

Definition is_even (x : N) : bool := (x mod 2 =? 0)%N.

(** [error] under [cfg(panic = "unwind")] (the default): [eprintln!] then
    return [recover]; the flag says whether writing to stderr succeeds.
    Returns the outcome and the lines written to stderr. *)
Definition error {A} (stderr_ok : bool) (recover : A) : outcome A * list string :=
  if stderr_ok then (Done recover, ["recovering..."])
  else (Panic "failed printing to stderr", []).

(** The top-level [sum_even_numbers] (used by [panic_behavior]). *)
Definition sum_even_numbers (stderr_ok : bool) (x y : N) : outcome N * list string :=
  if is_even x && is_even y then (uadd U8_MAX x y, []) else error stderr_ok 0%N.

(** The [Option] variant of the [options] test and its [sum5_even]. *)
Module Options.

Definition sum_even_numbers (x y : N) : outcome (option N) :=
  if is_even x && is_even y then obind (uadd U8_MAX x y) (fun s => Done (Some s))
  else Done None.

(** [impl SumEven for u8]: [self.sum(other)]. *)
Definition sum (self other : N) : outcome (option N) := sum_even_numbers self other.

(** The [?] operator on an [Option]. *)
Definition question {A B} (o : outcome (option A)) (k : A -> outcome (option B))
  : outcome (option B) :=
  obind o (fun r => match r with Some a => k a | None => Done None end).

Definition sum5_even (x y z v w : N) : outcome (option N) :=
  question (sum x y) (fun s =>
  question (sum s z) (fun s2 =>
  question (sum s2 v) (fun s3 =>
  sum s3 w))).

End Options.

(** The [Result] variant of the [results] test and its [sum5_even]. *)
Module Results.

Definition illegal_inputs_msg (x y : N) : string :=
  "illegal inputs: an input is not even: x=" ++ fmt_u128 x ++ " y=" ++ fmt_u128 y.

Definition sum_even_numbers (x y : N) : outcome (result N string) :=
  if is_even x && is_even y then obind (uadd U8_MAX x y) (fun s => Done (Ok s))
  else Done (Err (illegal_inputs_msg x y)).

Definition sum (self other : N) : outcome (result N string) := sum_even_numbers self other.

(** The [?] operator on a [Result]. *)
Definition question {A B E} (o : outcome (result A E)) (k : A -> outcome (result B E))
  : outcome (result B E) :=
  obind o (fun r => match r with Ok a => k a | Err e => Done (Err e) end).

Definition sum5_even (x y z v w : N) : outcome (result N string) :=
  question (sum x y) (fun s =>
  question (sum s z) (fun s2 =>
  question (sum s2 v) (fun s3 =>
  sum s3 w))).

End Results.

Inductive VectorError :=
| EmptyVector
| NotFound (index : N).

(** [head]: [array.len() > 0] holds exactly when the slice has a first
    element, which [&array[0]] returns. *)
Definition head {A} (array : list A) : result A VectorError :=
  match array with
  | x :: _ => Ok x
  | [] => Err EmptyVector
  end.

(** The [for] loop of [get], from the element whose position is [current]. *)
Fixpoint get_loop {A} (xs : list A) (index current : N) : result A VectorError :=
  match xs with
  | [] => Err (NotFound index)
  | x :: xs' => if (current =? index)%N then Ok x else get_loop xs' index (current + 1)%N
  end.

Definition get {A} (array : list A) (index : N) : result A VectorError :=
  get_loop array index 0%N.

End Errors.

(** *** src/src/unit_testing.rs *)

Module UnitTesting.

(** [pub struct Num(usize)]. *)
Record Num := mkNum { num0 : N }.

Definition add (self other : Num) : outcome Num :=
  obind (uadd USIZE_MAX (num0 self) (num0 other)) (fun v => Done (mkNum v)).

Definition sub (self other : Num) : outcome Num :=
  obind (usub (num0 self) (num0 other)) (fun v => Done (mkNum v)).

Definition try_sub (self other : Num) : result Num unit :=
  match checked_sub (num0 self) (num0 other) with
  | Some v => Ok (mkNum v)
  | None => Err tt
  end.

(** The body of [test_sub_chain_overflow], its four constants [5, 3, 1, 5]
    taken as parameters: two [?]-chained [try_sub]s, then a third whose
    error is the test's success. *)
Definition sub_chain (a b c d : N) : result unit unit :=
  match try_sub (mkNum a) (mkNum b) with
  | Err e => Err e
  | Ok n1 =>
      match try_sub n1 (mkNum c) with
      | Err e => Err e
      | Ok n2 =>
          match try_sub n2 (mkNum d) with
          | Err _ => Ok tt
          | Ok _ => Err tt
          end
      end
  end.

Definition test_sub_chain_overflow : result unit unit := sub_chain 5 3 1 5.

End UnitTesting.

(** *** src/src/types.rs *)

Module Types.

(** [struct Number { underlying: i32 }]. *)
Record Number := mkNumber { underlying : Z }.

(** The [match item] of [TryFrom<char> for Number]; a [char] is its code
    point. *)
Definition digit_of (item : N) : Z :=
  if (item =? 48)%N then 0 else if (item =? 49)%N then 1
  else if (item =? 50)%N then 2 else if (item =? 51)%N then 3
  else if (item =? 52)%N then 4 else if (item =? 53)%N then 5
  else if (item =? 54)%N then 6 else if (item =? 55)%N then 7
  else if (item =? 56)%N then 8 else if (item =? 57)%N then 9
  else -1.

Definition try_from (item : N) : result Number unit :=
  let int := digit_of item in
  if (int =? -1)%Z then Err tt else Ok (mkNumber int).

End Types.

(** *** src/src/functions.rs *)

Module Functions.

(** [increment]'s nested [one]: the first [return] is taken. *)
Definition one : N := 1.

Definition increment (arg : N) : outcome N := uadd U32_MAX arg one.

Definition sample_function (arg : N) : outcome N :=
  obind (increment arg) (fun result => Done result).

End Functions.

(** *** src/src/pattern_matching.rs *)

Module PatternMatching.

(** The arm of the [value_matching] [match] an [i32] selects, in source
    order: 0 for [1], 1 for [2 | 4 | 7], 2 for [10..20], 3 for
    [int @ 30..40], 4 for the guarded [int if int <= 0 && int > 40], 5 for
    [otherwise] (the final [_] arm, 6, is after a catch-all). *)
Definition value_matching_arm (n : Z) : nat :=
  if (n =? 1)%Z then 0
  else if ((n =? 2) || (n =? 4) || (n =? 7))%Z then 1
  else if ((10 <=? n) && (n <? 20))%Z then 2
  else if ((30 <=? n) && (n <? 40))%Z then 3
  else if ((n <=? 0) && (40 <? n))%Z then 4
  else 5.

Definition arm_text (arm : nat) : string :=
  match arm with
  | 0 => "Match a single value"
  | 1 => "Match multiple values"
  | 2 => "Match a range of values"
  | 3 => "Match a range of values, binding a name"
  | 4 => "Match zero"
  | 5 => "Match anything else"
  | _ => "Match anything else (never reached)"
  end.

Definition value_matching (n : Z) : string := arm_text (value_matching_arm n).

Definition I32_MIN : Z := -2147483648.
Definition I32_MAX : Z := 2147483647.

End PatternMatching.

(** *** src/src/macros.rs *)

Module Macros.

(** [check!(not $lhs)] expands to [!$lhs]; on a [u8] that is the bitwise
    complement of its eight bits. *)
Definition check_not_u8 (lhs : N) : N := N.lxor lhs U8_MAX.

Definition check_not_bool (lhs : bool) : bool := negb lhs.

End Macros.

(** *** src/src/main.rs and src/src/bin/main.rs *)

Module Main.

(** A process argument on Unix is a sequence of bytes ([OsString]); it is
    a [String] when the bytes are well-formed UTF-8.  This is the check of
    [core::str::from_utf8] that [OsString::into_string] performs: no
    overlong encodings, no surrogates, nothing above U+10FFFF. *)
Definition cont_byte (c : Ascii.ascii) : bool :=
  let b := Ascii.N_of_ascii c in ((128 <=? b) && (b <=? 191))%N.

Definition byte_in (lo hi : N) (c : Ascii.ascii) : bool :=
  let b := Ascii.N_of_ascii c in ((lo <=? b) && (b <=? hi))%N.

Fixpoint utf8_valid (s : string) : bool :=
  match s with
  | EmptyString => true
  | String c0 s1 =>
      let b0 := Ascii.N_of_ascii c0 in
      if (b0 <? 128)%N then utf8_valid s1
      else if ((194 <=? b0) && (b0 <=? 223))%N then
        match s1 with
        | String c1 s2 => cont_byte c1 && utf8_valid s2
        | EmptyString => false
        end
      else if ((224 <=? b0) && (b0 <=? 239))%N then
        match s1 with
        | String c1 (String c2 s3) =>
            byte_in (if (b0 =? 224)%N then 160 else 128)
                    (if (b0 =? 237)%N then 159 else 191) c1
            && cont_byte c2 && utf8_valid s3
        | _ => false
        end
      else if ((240 <=? b0) && (b0 <=? 244))%N then
        match s1 with
        | String c1 (String c2 (String c3 s4)) =>
            byte_in (if (b0 =? 240)%N then 144 else 128)
                    (if (b0 =? 244)%N then 143 else 191) c1
            && cont_byte c2 && cont_byte c3 && utf8_valid s4
        | _ => false
        end
      else false
  end.

Section WithDebug.

(** [Debug] of a [String] (quoted and escaped by [std]). *)
Variable debug_str : string -> string.

(** [Debug] of an [OsString] (quoted, invalid bytes as [\xNN]). *)
Variable debug_os : string -> string.

(** [Debug] of a [&[String]]. *)
Definition debug_slice (l : list string) : string :=
  "[" ++ String.concat ", " (map debug_str l) ++ "]".

Definition running_line (program : string) (program_args : list string) : string :=
  "Running " ++ debug_str program ++ " with arguments " ++ debug_slice program_args.

Definition index_msg : string := "index out of bounds: the len is 0 but the index is 0".

(** The panic of [Args::next], [s.into_string().unwrap()], on an argument
    that is not valid Unicode. *)
Definition unwrap_err_msg (arg : string) : string :=
  "called `Result::unwrap()` on an `Err` value: " ++ debug_os arg.

(** [std::env::args().collect::<Vec<String>>()] over the process arguments:
    each one is converted in turn, and the first that is not valid Unicode
    makes the iterator panic. *)
Fixpoint collect_args (args_os : list string) : outcome (list string) :=
  match args_os with
  | [] => Done []
  | a :: rest =>
      if utf8_valid a then
        match collect_args rest with
        | Done l => Done (a :: l)
        | Panic m => Panic m
        end
      else Panic (unwrap_err_msg a)
  end.

Definition env_args (args_os : list string) : M (list string) :=
  fun w => (collect_args args_os, w).

(** [&args[0]]. *)
Definition index0 (args : list string) : M string :=
  fun w => match args with
           | p :: _ => (Done p, w)
           | [] => (Panic index_msg, w)
           end.

(** [&args[1..]], reached only when [args] is non-empty. *)
Definition from1 (args : list string) : list string := tl args.

(** [main] of src/src/main.rs, run with the process arguments [args_os]. *)
Definition main (args_os : list string) : M unit :=
  println "Hello, world!" ;;;
  println "I'm a Rustacean" ;;;
  args <- env_args args_os ;;
  program <- index0 args ;;
  let program_args := from1 args in
  println (running_line program program_args).

(** [main] of src/src/bin/main.rs. *)
Definition bin_main (args_os : list string) : M unit :=
  args <- env_args args_os ;;
  program <- index0 args ;;
  let program_args := from1 args in
  println (running_line program program_args) ;;;
  println "Hello, world!".

End WithDebug.

End Main.

(** ** Instrumentation *)

(** The world handed to the wrapped logic: the start marker written, then
    the start timestamp taken. *)
Definition after_start (name : string) (w : world) : world :=
  let l := start_line name in
  let w1 := advance (write_time w l) (log (EvOut l) w) in
  log (EvNow (clock w1)) w1.

(** The wrapped logic, recording a mark when it is entered. *)
Definition entered (f : M unit) : M unit := mark 0 ;;; f.

Definition is_mark (e : event) : bool :=
  match e with EvMark _ => true | _ => false end.

Definition count_marks (l : list event) : nat := length (filter is_mark l).

(** A logic only adds effects to what happened before it, and records no
    marks of its own. *)
Definition appends_unmarked (f : M unit) : Prop :=
  forall w, exists l, trace (snd (f w)) = (trace w ++ l)%list /\ count_marks l = 0%nat.

(** ** Lemmas on the embedding *)

Lemma outs_app (l1 l2 : list event) : outs (l1 ++ l2) = (outs l1 ++ outs l2)%list.
Proof. unfold outs. apply flat_map_app. Qed.

Lemma as_millis_from_nanos (n : N) :
  as_millis (from_nanos n) = (n / NANOS_PER_MILLI)%N.
Proof.
  unfold as_millis, from_nanos; cbn [secs nanos].
  rewrite (N.div_mod n NANOS_PER_SEC) at 3 by (unfold NANOS_PER_SEC; lia).
  replace (NANOS_PER_SEC * (n / NANOS_PER_SEC))%N
    with ((n / NANOS_PER_SEC * MILLIS_PER_SEC) * NANOS_PER_MILLI)%N
    by (unfold NANOS_PER_SEC, MILLIS_PER_SEC, NANOS_PER_MILLI; lia).
  rewrite N.div_add_l by (unfold NANOS_PER_MILLI; lia).
  reflexivity.
Qed.

Lemma elapsed_millis (t1 t0 : Instant) :
  as_millis (duration_since t1 t0) = ((t1 - t0) / NANOS_PER_MILLI)%N.
Proof. unfold duration_since; apply as_millis_from_nanos. Qed.

Lemma runnable_unfold (name : string) (f : M unit) (w : world) :
  runnable name f w =
  if stdout_writable w then
    match f (after_start name w) with
    | (Done _, w2) =>
        println (end_line name
                   (as_millis (duration_since (clock w2) (clock (after_start name w)))))
                (log (EvNow (clock w2)) w2)
    | (Panic m, w2) => (Panic m, w2)
    end
  else (Panic println_panic_msg, w).
Proof.
  unfold runnable, bind, println, now, after_start.
  destruct (stdout_writable w); [|reflexivity].
  cbn. destruct (f _) as [[u|m] w2]; reflexivity.
Qed.

Lemma after_start_trace (name : string) (w : world) :
  trace (after_start name w) =
  (trace w ++ [EvOut (start_line name); EvNow (clock (after_start name w))])%list.
Proof. unfold after_start, log, advance; cbn. rewrite <- app_assoc. reflexivity. Qed.

Lemma after_start_writable (name : string) (w : world) :
  stdout_writable (after_start name w) = stdout_writable w.
Proof. reflexivity. Qed.

(** When both markers can be written and the logic completes normally. *)
Lemma runnable_completes (name : string) (f : M unit) (w w2 : world) (v : unit) :
  stdout_writable w = true ->
  f (after_start name w) = (Done v, w2) ->
  stdout_writable w2 = true ->
  exists w3,
    runnable name f w = (Done tt, w3) /\
    trace w3 =
    (trace w2 ++ [EvNow (clock w2);
                  EvOut (end_line name
                           ((clock w2 - clock (after_start name w)) / NANOS_PER_MILLI))])%list.
Proof.
  intros Hw Hf Hw2. rewrite runnable_unfold, Hw, Hf.
  unfold println at 1. cbn [log stdout_writable]. rewrite Hw2.
  eexists; split; [reflexivity|].
  cbn. rewrite elapsed_millis, <- app_assoc. reflexivity.
Qed.

(** The wrapped logic panics: the wrapper adds nothing after it. *)
Lemma runnable_panics (name : string) (f : M unit) (w w2 : world) (m : string) :
  stdout_writable w = true ->
  f (after_start name w) = (Panic m, w2) ->
  runnable name f w = (Panic m, w2).
Proof. intros Hw Hf. rewrite runnable_unfold, Hw, Hf. reflexivity. Qed.

(** The wrapped logic completes but the end marker cannot be written: the
    end timestamp is taken and [println!] panics, writing nothing. *)
Lemma runnable_end_write_fails (name : string) (f : M unit) (w w2 : world) (v : unit) :
  stdout_writable w = true ->
  f (after_start name w) = (Done v, w2) ->
  stdout_writable w2 = false ->
  runnable name f w = (Panic println_panic_msg, log (EvNow (clock w2)) w2).
Proof.
  intros Hw Hf Hw2. rewrite runnable_unfold, Hw, Hf.
  unfold println. cbn [log stdout_writable]. rewrite Hw2. reflexivity.
Qed.

Definition is_digit (c : Ascii.ascii) : bool :=
  (Ascii.leb "0" c && Ascii.leb c "9")%char.

Fixpoint all_digits (s : string) : bool :=
  match s with
  | EmptyString => true
  | String c s' => is_digit c && all_digits s'
  end.

Lemma string_of_uint_digits (u : Decimal.uint) :
  all_digits (NilEmpty.string_of_uint u) = true.
Proof. induction u; cbn; try rewrite IHu; reflexivity. Qed.

(** The printed duration is a non-empty run of decimal digits. *)
Lemma fmt_u128_digits (n : N) :
  fmt_u128 n <> EmptyString /\ all_digits (fmt_u128 n) = true.
Proof.
  unfold fmt_u128, NilZero.string_of_uint.
  destruct (N.to_uint n) eqn:E;
    (split; [discriminate|]); try reflexivity;
    cbn [NilEmpty.string_of_uint all_digits is_digit]; apply string_of_uint_digits.
Qed.

(** ** The claims *)

(** C1 (as amended).  For every name and every wrapped logic that completes
    normally (the start marker was written, so standard output was writable
    then), the wrapper's first line is [<name> [start]], written before the
    logic runs.  If standard output is still writable for the end marker,
    the invocation completes and the wrapper's second and last line is
    [<name> [end]: took <ms> ms...], with the same name and [<ms>] a
    non-negative integer written in decimal digits.  If it is not, the
    invocation panics in [println!] after the end timestamp and the wrapper
    writes nothing more: the start line is its only line. *)
Theorem C1_two_marker_lines (name : string) (f : M unit) (w w2 : world) (v : unit) :
  stdout_writable w = true ->
  f (after_start name w) = (Done v, w2) ->
  trace (after_start name w) =
    (trace w ++ [EvOut (name ++ " [start]"); EvNow (clock (after_start name w))])%list /\
  (stdout_writable w2 = true ->
   exists (ms : N) w3,
     runnable name f w = (Done tt, w3) /\
     trace w3 = (trace w2 ++ [EvNow (clock w2);
                              EvOut (name ++ " [end]: took " ++ fmt_u128 ms ++ " ms...")])%list /\
     all_digits (fmt_u128 ms) = true /\ fmt_u128 ms <> EmptyString) /\
  (stdout_writable w2 = false ->
   exists w3,
     runnable name f w = (Panic println_panic_msg, w3) /\
     trace w3 = (trace w2 ++ [EvNow (clock w2)])%list).
Proof.
  intros Hw Hf. split; [apply after_start_trace|]. split.
  - intros Hw2.
    destruct (runnable_completes name f w w2 v Hw Hf Hw2) as (w3 & Hr & Ht).
    eexists; exists w3; split; [exact Hr|split; [exact Ht|]].
    destruct (fmt_u128_digits ((clock w2 - clock (after_start name w)) / NANOS_PER_MILLI)).
    split; assumption.
  - intros Hw2. eexists; split; [exact (runnable_end_write_fails name f w w2 v Hw Hf Hw2)|].
    reflexivity.
Qed.

Lemma C1_two_marker_lines_witness :
  stdout_writable (world0 true 0 5) = true /\
  skip (after_start "t" (world0 true 0 5)) = (Done tt, after_start "t" (world0 true 0 5)) /\
  (exists (ms : N) w3, runnable "t" skip (world0 true 0 5) = (Done tt, w3) /\
     outs (trace w3) = ["t [start]"; "t [end]: took " ++ fmt_u128 ms ++ " ms..."]) /\
  stdout_closed_meanwhile (after_start "t" (world0 true 0 0)) =
    (Done tt, mkWorld [EvOut "t [start]"; EvNow 0%N] false 0%N (fun _ => 0%N)) /\
  (exists w3, runnable "t" stdout_closed_meanwhile (world0 true 0 0) =
                (Panic println_panic_msg, w3) /\
     outs (trace w3) = ["t [start]"]).
Proof.
  refine (conj eq_refl (conj eq_refl (conj _ (conj eq_refl _)))).
  - destruct (proj1 (proj2 (C1_two_marker_lines "t" skip (world0 true 0 5)
                               (after_start "t" (world0 true 0 5)) tt eq_refl eq_refl)) eq_refl)
      as (ms & w3 & Hr & Ht & _).
    exists ms, w3. split; [exact Hr|]. rewrite Ht. reflexivity.
  - destruct (proj2 (proj2 (C1_two_marker_lines "t" stdout_closed_meanwhile (world0 true 0 0)
                               (mkWorld [EvOut "t [start]"; EvNow 0%N] false 0%N (fun _ => 0%N))
                               tt eq_refl eq_refl)) eq_refl)
      as (w3 & Hr & Ht).
    exists w3. split; [exact Hr|]. rewrite Ht. reflexivity.
Defined.

(** C1 fails as stated: a logic that completes normally while standard
    output stops being writable gets only the start line, and the
    invocation panics in [println!] instead of writing the end line. *)
Lemma C1_counterexample :
  runnable "t" stdout_closed_meanwhile (world0 true 0 0) =
    (Panic println_panic_msg,
     mkWorld [EvOut "t [start]"; EvNow 0%N; EvNow 0%N] false 0%N (fun _ => 0%N)) /\
  stdout_closed_meanwhile (after_start "t" (world0 true 0 0)) =
    (Done tt, mkWorld [EvOut "t [start]"; EvNow 0%N] false 0%N (fun _ => 0%N)).
Proof. split; reflexivity. Qed.

(** C2.  A wrapped logic that panics while it runs (it runs once the start
    marker has been written, so standard output was writable then): the
    start line has been emitted, and the invocation panics with the logic's
    own message and leaves exactly the world the logic left, so the wrapper
    writes no end line and neither catches nor converts the panic. *)
Theorem C2_panic_propagates (name : string) (f : M unit) (w w2 : world) (m : string) :
  stdout_writable w = true ->
  f (after_start name w) = (Panic m, w2) ->
  trace (after_start name w) =
    (trace w ++ [EvOut (name ++ " [start]"); EvNow (clock (after_start name w))])%list /\
  runnable name f w = (Panic m, w2).
Proof.
  intros Hw Hf. split; [apply after_start_trace|].
  apply runnable_panics; assumption.
Qed.

Lemma C2_panic_propagates_witness :
  stdout_writable (world0 true 0 5) = true /\
  panic "boom" (after_start "t" (world0 true 0 5)) =
    (Panic "boom", after_start "t" (world0 true 0 5)) /\
  runnable "t" (panic "boom") (world0 true 0 5) =
    (Panic "boom", after_start "t" (world0 true 0 5)).
Proof.
  refine (conj eq_refl (conj eq_refl _)).
  apply (C2_panic_propagates "t" (panic "boom") (world0 true 0 5)
           (after_start "t" (world0 true 0 5)) "boom"); reflexivity.
Defined.

Lemma entered_run (f : M unit) (w : world) : entered f w = f (log (EvMark 0) w).
Proof. reflexivity. Qed.

Lemma count_marks_app (l1 l2 : list event) :
  count_marks (l1 ++ l2) = (count_marks l1 + count_marks l2)%nat.
Proof. unfold count_marks. rewrite filter_app, length_app. reflexivity. Qed.

(** C3 (as amended).  Each invocation enters the wrapped logic at most once:
    exactly once when standard output is writable for the start marker, and
    not at all otherwise ([println!] panics first).  When the logic runs and
    completes, the effects come in this order: start marker, start
    timestamp, the logic, end timestamp right after it, and then the end
    marker carrying the elapsed time between the two timestamps when
    standard output can still be written, or else the panic of [println!]
    in place of the end marker. *)
Theorem C3_steps_in_order (name : string) (f : M unit) (w : world) :
  appends_unmarked f ->
  (exists l, trace (snd (runnable name (entered f) w)) = (trace w ++ l)%list /\
             count_marks l = if stdout_writable w then 1%nat else 0%nat) /\
  (forall w2 v, stdout_writable w = true ->
     f (log (EvMark 0) (after_start name w)) = (Done v, w2) ->
     stdout_writable w2 = true ->
     exists l w3, runnable name (entered f) w = (Done tt, w3) /\
       trace w3 =
       (trace w ++ [EvOut (start_line name); EvNow (clock (after_start name w)); EvMark 0]
                ++ l ++
                [EvNow (clock w2);
                 EvOut (end_line name ((clock w2 - clock (after_start name w))
                                         / NANOS_PER_MILLI))])%list /\
       count_marks l = 0%nat) /\
  (forall w2 v, stdout_writable w = true ->
     f (log (EvMark 0) (after_start name w)) = (Done v, w2) ->
     stdout_writable w2 = false ->
     exists l w3, runnable name (entered f) w = (Panic println_panic_msg, w3) /\
       trace w3 =
       (trace w ++ [EvOut (start_line name); EvNow (clock (after_start name w)); EvMark 0]
                ++ l ++ [EvNow (clock w2)])%list /\
       count_marks l = 0%nat).
Proof.
  intros Hf. split; [|split].
  - rewrite runnable_unfold. destruct (stdout_writable w) eqn:Hw.
    2:{ exists []. rewrite app_nil_r. split; reflexivity. }
    rewrite entered_run.
    destruct (Hf (log (EvMark 0) (after_start name w))) as (l & Hl & Hc).
    destruct (f (log (EvMark 0) (after_start name w))) as [[u|m] w2] eqn:E;
      cbn [snd] in Hl.
    + unfold println. cbn [log stdout_writable].
      destruct (stdout_writable w2); cbn [snd log advance trace];
        rewrite Hl; cbn [log trace]; rewrite after_start_trace;
        repeat rewrite <- app_assoc; eexists; split; try reflexivity;
        repeat rewrite count_marks_app; rewrite Hc; reflexivity.
    + cbn [snd]. rewrite Hl. cbn [log trace]. rewrite after_start_trace.
      repeat rewrite <- app_assoc. eexists; split; [reflexivity|].
      repeat rewrite count_marks_app; rewrite Hc; reflexivity.
  - intros w2 v Hw Hf2 Hw2.
    destruct (Hf (log (EvMark 0) (after_start name w))) as (l & Hl & Hc).
    rewrite Hf2 in Hl; cbn [snd log trace] in Hl.
    destruct (runnable_completes name (entered f) w w2 v Hw) as (w3 & Hr & Ht);
      [rewrite entered_run; exact Hf2 | exact Hw2 |].
    exists l, w3. split; [exact Hr|split; [|exact Hc]].
    rewrite Ht, Hl, after_start_trace. repeat rewrite <- app_assoc. reflexivity.
  - intros w2 v Hw Hf2 Hw2.
    destruct (Hf (log (EvMark 0) (after_start name w))) as (l & Hl & Hc).
    rewrite Hf2 in Hl; cbn [snd log trace] in Hl.
    exists l, (log (EvNow (clock w2)) w2). split.
    + apply runnable_end_write_fails with (v := v); [exact Hw| |exact Hw2].
      rewrite <- entered_run in Hf2. exact Hf2.
    + split; [|exact Hc]. cbn [log trace].
      rewrite Hl, after_start_trace. repeat rewrite <- app_assoc. reflexivity.
Qed.

Lemma C3_steps_in_order_witness :
  appends_unmarked skip /\
  (exists l, trace (snd (runnable "t" (entered skip) (world0 true 0 5))) =
               (trace (world0 true 0 5) ++ l)%list /\ count_marks l = 1%nat).
Proof.
  assert (H : appends_unmarked skip).
  { intros w. exists []. rewrite app_nil_r. split; reflexivity. }
  split; [exact H|].
  exact (proj1 (C3_steps_in_order "t" skip (world0 true 0 5) H)).
Defined.

(** C3 fails as stated: when standard output is not writable the start
    [println!] panics and the wrapped logic runs zero times (no mark, no
    effect at all). *)
Lemma C3_counterexample :
  runnable "t" (entered skip) (world0 false 0 0) =
    (Panic println_panic_msg, world0 false 0 0) /\
  count_marks (trace (world0 false 0 0)) = 0%nat.
Proof. split; reflexivity. Qed.

(** C4.  The milliseconds figure of the end marker is the difference of the
    end and start timestamps in whole milliseconds (non-negative, an [N]);
    the start timestamp is the clock of the world the logic starts in, read
    after the start marker has been written, and the end timestamp is the
    clock of the world the logic leaves, read before the end marker is
    written, so the writes of the markers are not counted. *)
Theorem C4_duration_inside_logic (name : string) (f : M unit) (w w2 : world) (v : unit) :
  stdout_writable w = true ->
  f (after_start name w) = (Done v, w2) ->
  stdout_writable w2 = true ->
  (clock (after_start name w) <= clock w2)%N ->
  exists (ms : N) w3,
    runnable name f w = (Done tt, w3) /\
    trace (after_start name w) =
      (trace w ++ [EvOut (start_line name); EvNow (clock (after_start name w))])%list /\
    trace w3 = (trace w2 ++ [EvNow (clock w2); EvOut (end_line name ms)])%list /\
    Z.of_N ms = ((Z.of_N (clock w2) - Z.of_N (clock (after_start name w))) / 1000000)%Z.
Proof.
  intros Hw Hf Hw2 Hle.
  destruct (runnable_completes name f w w2 v Hw Hf Hw2) as (w3 & Hr & Ht).
  eexists; exists w3; split; [exact Hr|split; [apply after_start_trace|split; [exact Ht|]]].
  rewrite N2Z.inj_div, N2Z.inj_sub by exact Hle. reflexivity.
Qed.

Lemma C4_duration_inside_logic_witness :
  stdout_writable (world0 true 0 5) = true /\
  spin 3000000 (after_start "t" (world0 true 0 5)) =
    (Done tt, advance 3000000 (after_start "t" (world0 true 0 5))) /\
  stdout_writable (advance 3000000 (after_start "t" (world0 true 0 5))) = true /\
  (clock (after_start "t" (world0 true 0 5)) <=
     clock (advance 3000000 (after_start "t" (world0 true 0 5))))%N /\
  exists (ms : N) w3,
    runnable "t" (spin 3000000) (world0 true 0 5) = (Done tt, w3) /\
    Z.of_N ms = 3%Z.
Proof.
  refine (conj eq_refl (conj eq_refl (conj eq_refl (conj _ _)))).
  - vm_compute. discriminate.
  - destruct (C4_duration_inside_logic "t" (spin 3000000) (world0 true 0 5)
                (advance 3000000 (after_start "t" (world0 true 0 5))) tt)
      as (ms & w3 & Hr & _ & _ & Hms); try reflexivity.
    + vm_compute. discriminate.
    + exists ms, w3. split; [exact Hr|]. rewrite Hms. reflexivity.
Defined.

(** C5 (as amended).  The wrapped logic is unit-valued (it sits in statement
    position of a function returning [()]).  When it completes normally,
    the invocation completes with the very value the logic produced if the
    end marker can be written, and panics in [println!] if it cannot. *)
Theorem C5_value_passes_through (name : string) (f : M unit) (w w2 : world) (v : unit) :
  stdout_writable w = true ->
  f (after_start name w) = (Done v, w2) ->
  (stdout_writable w2 = true -> fst (runnable name f w) = Done v) /\
  (stdout_writable w2 = false -> fst (runnable name f w) = Panic println_panic_msg).
Proof.
  intros Hw Hf. split; intros Hw2.
  - destruct v.
    destruct (runnable_completes name f w w2 tt Hw Hf Hw2) as (w3 & Hr & _).
    rewrite Hr. reflexivity.
  - rewrite (runnable_end_write_fails name f w w2 v Hw Hf Hw2). reflexivity.
Qed.

Lemma C5_value_passes_through_witness :
  stdout_writable (world0 true 0 5) = true /\
  skip (after_start "t" (world0 true 0 5)) = (Done tt, after_start "t" (world0 true 0 5)) /\
  fst (runnable "t" skip (world0 true 0 5)) = Done tt /\
  stdout_closed_meanwhile (after_start "t" (world0 true 0 0)) =
    (Done tt, mkWorld [EvOut "t [start]"; EvNow 0%N] false 0%N (fun _ => 0%N)) /\
  fst (runnable "t" stdout_closed_meanwhile (world0 true 0 0)) = Panic println_panic_msg.
Proof.
  refine (conj eq_refl (conj eq_refl (conj _ (conj eq_refl _)))).
  - apply (proj1 (C5_value_passes_through "t" skip (world0 true 0 5)
                    (after_start "t" (world0 true 0 5)) tt eq_refl eq_refl)).
    reflexivity.
  - apply (proj2 (C5_value_passes_through "t" stdout_closed_meanwhile (world0 true 0 0)
                    (mkWorld [EvOut "t [start]"; EvNow 0%N] false 0%N (fun _ => 0%N))
                    tt eq_refl eq_refl)).
    reflexivity.
Defined.

(** C5 fails as stated: the logic completes normally with its value, but
    the write of the end marker fails and the invocation panics, so no value
    comes out of the wrapper. *)
Lemma C5_counterexample :
  fst (stdout_closed_meanwhile (after_start "t" (world0 true 0 0))) = Done tt /\
  fst (runnable "t" stdout_closed_meanwhile (world0 true 0 0)) = Panic println_panic_msg.
Proof. split; reflexivity. Qed.

Lemma find_app_absent {A} (p : A -> bool) (l1 l2 : list A) :
  existsb p l1 = false -> find p (l1 ++ l2) = find p l2.
Proof.
  induction l1 as [|x l1 IH]; cbn; [reflexivity|].
  destruct (p x); [discriminate|]. exact IH.
Qed.

(** C6.  Registering a test leaves the world as it is (no output, no clock
    reading, the logic not run): either the name is already taken in the
    scope and nothing happens, or the only change is the new item of the
    scope, whose body is the wrapper still waiting to be invoked; the
    harness later finds it by its name. *)
Theorem C6_register_no_effects (name : string) (exp : M unit) (s : scope) (w : world) :
  (declared s name = true /\ register_st name exp (s, w) = None) \/
  (declared s name = false /\
   register_st name exp (s, w) = Some ((s ++ [mkItem name (runnable name exp)])%list, w) /\
   invoke (s ++ [mkItem name (runnable name exp)])%list name = Some (runnable name exp)).
Proof.
  unfold register_st, register; cbn [fst snd].
  destruct (declared s name) eqn:D; [left; split; reflexivity|right].
  split; [reflexivity|split; [reflexivity|]].
  unfold invoke. rewrite find_app_absent by exact D.
  cbn. rewrite String.eqb_refl. reflexivity.
Qed.

(** C7.  Once a name is registered in a scope, registering it again there,
    whatever the logic, is refused: the first test is never replaced. *)
Theorem C7_duplicate_rejected (name : string) (e1 e2 : M unit) (s s1 : scope) :
  register name e1 s = Some s1 ->
  register name e2 s1 = None.
Proof.
  unfold register. destruct (declared s name); [discriminate|].
  intros H. injection H as <-.
  unfold declared. rewrite existsb_app. cbn. rewrite String.eqb_refl, orb_true_r.
  reflexivity.
Qed.

Lemma C7_duplicate_rejected_witness :
  register "t" skip [] = Some [mkItem "t" (runnable "t" skip)] /\
  register "t" (panic "x") [mkItem "t" (runnable "t" skip)] = None.
Proof.
  split; [reflexivity|].
  apply (C7_duplicate_rejected "t" skip (panic "x") []). reflexivity.
Defined.

(** *** The step-by-step embedding *)

Module ConcurrentFacts.
Import Concurrent.

Lemma interp_tseq (p k : thread) (w : world) :
  interp (tseq p k) w = (interp p ;;; interp k) w.
Proof.
  revert w. induction p as [| m | l p IH | f IH]; intros w; cbn [tseq interp].
  - reflexivity.
  - reflexivity.
  - unfold bind. destruct (println l w) as [[[]|m] w1]; [|reflexivity].
    rewrite IH. reflexivity.
  - unfold bind, now. rewrite IH. reflexivity.
Qed.

(** Run alone, the step-by-step body is the wrapper of the sequential
    embedding. *)
Lemma runnable_thread_interp (name : string) (exp : thread) (w : world) :
  interp (runnable_thread name exp) w = runnable name (interp exp) w.
Proof.
  unfold runnable_thread, runnable. cbn [interp].
  unfold bind. destruct (println _ w) as [[[]|m] w1]; [|reflexivity].
  unfold now. rewrite interp_tseq. unfold bind.
  destruct (interp exp _) as [[[]|m] w2]; [|reflexivity].
  cbn [interp]. unfold bind, now, ret.
  destruct (println _ _) as [[[]|m'] w3]; reflexivity.
Qed.

Lemma replay_app (p : thread) (l1 l2 : list event) :
  replay p (l1 ++ l2) = match replay p l1 with Some p' => replay p' l2 | None => None end.
Proof.
  revert p. induction l1 as [|e l1 IH]; intros p; [reflexivity|]. cbn [app replay].
  destruct p, e; try reflexivity.
  - destruct (String.eqb line line0); [apply IH|reflexivity].
  - apply IH.
Qed.

Lemma step_replay (p p' : thread) (clk : Instant) (e : event) :
  step p clk = Some (e, p') -> replay p [e] = Some p'.
Proof.
  destruct p; cbn; intros H; try discriminate; injection H as <- <-; cbn.
  - rewrite String.eqb_refl. reflexivity.
  - reflexivity.
Qed.

Lemma proj_snoc (i j : bool) (e : event) (T : list (bool * event)) :
  proj i (T ++ [(j, e)]) = (proj i T ++ if Bool.eqb j i then [e] else [])%list.
Proof.
  unfold proj. rewrite filter_app, map_app. cbn.
  destruct (Bool.eqb j i); reflexivity.
Qed.

(** What each run keeps: standard output is the lines of the recorded
    effects, and each thread has performed exactly its own effects. *)
Definition inv (p q : thread) (st : state) : Prop :=
  stdout st = outs (map snd (events st)) /\
  replay p (proj true (events st)) = Some (thr1 st) /\
  replay q (proj false (events st)) = Some (thr2 st).

Lemma run_inv (p q : thread) (sched : schedule) (st : state) :
  inv p q st -> inv p q (run sched st).
Proof.
  revert st. induction sched as [|[i dt] sched IH]; intros st (Ho & H1 & H2); cbn.
  - split; [exact Ho|split; assumption].
  - destruct (step (if i then thr1 st else thr2 st) _) as [[e p']|] eqn:E;
      apply IH.
    + pose proof (step_replay _ _ _ _ E) as He.
      unfold inv; cbn [stdout events thr1 thr2].
      rewrite !proj_snoc, map_app, outs_app, <- Ho, !replay_app, H1, H2.
      destruct i; cbn [Bool.eqb].
      * split; [destruct e; cbn; rewrite ?app_nil_r; reflexivity|]. split; [rewrite He|]; reflexivity.
      * split; [destruct e; cbn; rewrite ?app_nil_r; reflexivity|]. split; [|rewrite He]; reflexivity.
    + split; [exact Ho|split; assumption].
Qed.

Lemma replay_tseq (p k : thread) (tr : list event) (r : thread) :
  replay (tseq p k) tr = Some r ->
  (exists tr1 tr2, tr = (tr1 ++ tr2)%list /\ replay p tr1 = Some TDone /\
                   replay k tr2 = Some r) \/
  (exists p', replay p tr = Some p' /\ r = tseq p' k).
Proof.
  revert p. induction tr as [|e tr IH]; intros p H.
  - right. exists p. cbn in *. injection H as <-. split; reflexivity.
  - destruct p as [| m | l p | f].
    + left. exists [], (e :: tr). split; [reflexivity|split; [reflexivity|exact H]].
    + destruct e; discriminate.
    + cbn in H. destruct e; try discriminate.
      destruct (String.eqb l line) eqn:El; [|discriminate].
      destruct (IH p H) as [(tr1 & tr2 & -> & Hp & Hk)|(p' & Hp & ->)].
      * left. exists (EvOut line :: tr1), tr2. cbn. rewrite El. auto.
      * right. exists p'. cbn. rewrite El. auto.
    + cbn in H. destruct e; try discriminate.
      destruct (IH (f t) H) as [(tr1 & tr2 & -> & Hp & Hk)|(p' & Hp & ->)].
      * left. exists (EvNow t :: tr1), tr2. cbn. auto.
      * right. exists p'. cbn. auto.
Qed.

Lemma replay_done (tr : list event) (r : thread) :
  replay TDone tr = Some r -> tr = [] /\ r = TDone.
Proof. destruct tr as [|e tr]; cbn; [intros H; injection H as <-; auto|destruct e; discriminate]. Qed.

(** A finished invocation performed its start line, its start reading,
    the effects of its logic, its end reading and its end line, in this
    order, and the end line carries the time between its own two
    readings. *)
Lemma replay_runnable_done (name : string) (exp : thread) (tr : list event) :
  replay (runnable_thread name exp) tr = Some TDone ->
  exists t1 l t2,
    tr = (EvOut (start_line name) :: EvNow t1 :: l ++
          [EvNow t2; EvOut (end_line name (as_millis (duration_since t2 t1)))])%list /\
    replay exp l = Some TDone.
Proof.
  destruct tr as [|[l0|t1|] tr]; cbn; try discriminate.
  destruct (String.eqb_spec (start_line name) l0) as [<-|]; [|discriminate].
  destruct tr as [|[|t1|] tr]; cbn; try discriminate.
  intros H. apply replay_tseq in H.
  destruct H as [(tr1 & tr2 & -> & Hp & Hk)|(p' & _ & Hr)].
  - destruct tr2 as [|[|t2|] tr2]; cbn in Hk; try discriminate.
    destruct tr2 as [|[l2| |] tr2]; cbn in Hk; try discriminate.
    destruct (String.eqb_spec (end_line name (as_millis (duration_since t2 t1))) l2)
      as [<-|]; [|discriminate].
    destruct (replay_done _ _ Hk) as [-> _].
    exists t1, tr1, t2. split; [reflexivity|exact Hp].
  - destruct p'; discriminate.
Qed.

End ConcurrentFacts.

(** C8.  Two invocations run concurrently, on any schedule of their atomic
    steps and any advance of the shared clock, share nothing but the clock
    and the output stream.  Every line of standard output is a whole line
    of exactly one of them.  Each of them performs exactly the effects its
    own body performs given its own clock readings, whatever the other one
    does.  When one has finished, its effects are its start line, its
    start reading, its logic's effects, its end reading and its end line,
    in this order, and the end line reports the time between its own two
    readings. *)
Theorem C8_no_shared_state (name1 name2 : string) (exp1 exp2 : Concurrent.thread)
    (clk0 : Instant) (sched : Concurrent.schedule) :
  let p := Concurrent.runnable_thread name1 exp1 in
  let q := Concurrent.runnable_thread name2 exp2 in
  let st := Concurrent.run sched (Concurrent.start2 clk0 p q) in
  Concurrent.stdout st = outs (map snd (Concurrent.events st)) /\
  Concurrent.replay p (Concurrent.proj true (Concurrent.events st)) =
    Some (Concurrent.thr1 st) /\
  Concurrent.replay q (Concurrent.proj false (Concurrent.events st)) =
    Some (Concurrent.thr2 st) /\
  (Concurrent.thr1 st = Concurrent.TDone ->
   exists t1 l t2,
     Concurrent.proj true (Concurrent.events st) =
       (EvOut (start_line name1) :: EvNow t1 :: l ++
        [EvNow t2; EvOut (end_line name1 (as_millis (duration_since t2 t1)))])%list /\
     Concurrent.replay exp1 l = Some Concurrent.TDone) /\
  (Concurrent.thr2 st = Concurrent.TDone ->
   exists t1 l t2,
     Concurrent.proj false (Concurrent.events st) =
       (EvOut (start_line name2) :: EvNow t1 :: l ++
        [EvNow t2; EvOut (end_line name2 (as_millis (duration_since t2 t1)))])%list /\
     Concurrent.replay exp2 l = Some Concurrent.TDone).
Proof.
  intros p q st.
  assert (H : ConcurrentFacts.inv p q st).
  { apply ConcurrentFacts.run_inv. split; [reflexivity|split; reflexivity]. }
  destruct H as (Ho & H1 & H2).
  split; [exact Ho|split; [exact H1|split; [exact H2|split]]]; intros Hd.
  - rewrite Hd in H1. exact (ConcurrentFacts.replay_runnable_done name1 exp1 _ H1).
  - rewrite Hd in H2. exact (ConcurrentFacts.replay_runnable_done name2 exp2 _ H2).
Qed.

Lemma C8_no_shared_state_witness :
  let st := Concurrent.run
              [(true, 0); (false, 0); (true, 0); (false, 0); (false, 0);
               (true, 3000000); (false, 1000000); (true, 0); (false, 0)]%N
              (Concurrent.start2 0%N
                 (Concurrent.runnable_thread "a" Concurrent.TDone)
                 (Concurrent.runnable_thread "b" (Concurrent.TOut "working" Concurrent.TDone))) in
  Concurrent.stdout st =
    ["a [start]"; "b [start]"; "working"; "a [end]: took 3 ms..."; "b [end]: took 4 ms..."] /\
  Concurrent.thr1 st = Concurrent.TDone /\
  Concurrent.thr2 st = Concurrent.TDone /\
  (exists t1 l t2,
     Concurrent.proj false (Concurrent.events st) =
       (EvOut "b [start]" :: EvNow t1 :: l ++
        [EvNow t2; EvOut (end_line "b" (as_millis (duration_since t2 t1)))])%list /\
     Concurrent.replay (Concurrent.TOut "working" Concurrent.TDone) l = Some Concurrent.TDone).
Proof.
  intros st. split; [reflexivity|]. split; [reflexivity|]. split; [reflexivity|].
  exact (proj2 (proj2 (proj2 (proj2
           (C8_no_shared_state "a" "b" Concurrent.TDone
              (Concurrent.TOut "working" Concurrent.TDone) 0%N
              [(true, 0); (false, 0); (true, 0); (false, 0); (false, 0);
               (true, 3000000); (false, 1000000); (true, 0); (false, 0)]%N)))) eq_refl).
Defined.

(** C9 (as amended).  The wrapper's only failure path of its own is the
    panic of [println!] when a marker cannot be written to standard output:
    every panic of an invocation is that one or the logic's own, and when
    the logic completes normally and standard output is writable for both
    markers, the invocation completes and its last effect is the end
    marker (the clock readings and the elapsed-time computation never
    fail). *)
Theorem C9_no_failure_of_its_own (name : string) (f : M unit) (w : world) :
  (forall m w', runnable name f w = (Panic m, w') ->
     m = println_panic_msg \/ exists w2, f (after_start name w) = (Panic m, w2)) /\
  (forall v w2, stdout_writable w = true ->
     f (after_start name w) = (Done v, w2) ->
     stdout_writable w2 = true ->
     exists w3 ms, runnable name f w = (Done tt, w3) /\
       trace w3 = (trace w2 ++ [EvNow (clock w2); EvOut (end_line name ms)])%list).
Proof.
  split.
  - intros m w' H. rewrite runnable_unfold in H.
    destruct (stdout_writable w); [|injection H as <- _; left; reflexivity].
    destruct (f (after_start name w)) as [[u|m'] w2] eqn:E.
    + unfold println in H. destruct (stdout_writable _); [discriminate|].
      injection H as <- _. left; reflexivity.
    + injection H as <- _. right. exists w2. reflexivity.
  - intros v w2 Hw Hf Hw2.
    destruct (runnable_completes name f w w2 v Hw Hf Hw2) as (w3 & Hr & Ht).
    exists w3; eexists; split; [exact Hr|exact Ht].
Qed.

Lemma C9_no_failure_of_its_own_witness :
  stdout_writable (world0 true 0 5) = true /\
  skip (after_start "t" (world0 true 0 5)) = (Done tt, after_start "t" (world0 true 0 5)) /\
  stdout_writable (after_start "t" (world0 true 0 5)) = true /\
  exists w3 ms, runnable "t" skip (world0 true 0 5) = (Done tt, w3) /\
    trace w3 = (trace (after_start "t" (world0 true 0 5)) ++
                [EvNow (clock (after_start "t" (world0 true 0 5)));
                 EvOut (end_line "t" ms)])%list.
Proof.
  refine (conj eq_refl (conj eq_refl (conj eq_refl _))).
  apply (proj2 (C9_no_failure_of_its_own "t" skip (world0 true 0 5)) tt); reflexivity.
Defined.

(** C9 fails as stated: the logic completes normally, yet the invocation
    itself panics in the [println!] of the end marker. *)
Lemma C9_counterexample :
  fst (stdout_closed_meanwhile (after_start "t" (world0 true 0 0))) = Done tt /\
  fst (runnable "t" stdout_closed_meanwhile (world0 true 0 0)) = Panic "failed printing to stdout".
Proof. split; reflexivity. Qed.

(** C10.  The duration is truncated to whole milliseconds: a logic that
    completes normally in under one millisecond gets the end marker
    [<name> [end]: took 0 ms...]. *)
Theorem C10_sub_millisecond_is_zero (name : string) (f : M unit) (w w2 : world) (v : unit) :
  stdout_writable w = true ->
  f (after_start name w) = (Done v, w2) ->
  stdout_writable w2 = true ->
  (clock w2 - clock (after_start name w) < 1000000)%N ->
  exists w3,
    runnable name f w = (Done tt, w3) /\
    trace w3 = (trace w2 ++ [EvNow (clock w2); EvOut (name ++ " [end]: took 0 ms...")])%list.
Proof.
  intros Hw Hf Hw2 Hlt.
  destruct (runnable_completes name f w w2 v Hw Hf Hw2) as (w3 & Hr & Ht).
  exists w3. split; [exact Hr|]. rewrite Ht.
  rewrite (N.div_small _ NANOS_PER_MILLI) by exact Hlt. reflexivity.
Qed.

Lemma C10_sub_millisecond_is_zero_witness :
  stdout_writable (world0 true 0 5) = true /\
  spin 999999 (after_start "t" (world0 true 0 5)) =
    (Done tt, advance 999999 (after_start "t" (world0 true 0 5))) /\
  stdout_writable (advance 999999 (after_start "t" (world0 true 0 5))) = true /\
  (clock (advance 999999 (after_start "t" (world0 true 0 5))) -
     clock (after_start "t" (world0 true 0 5)) < 1000000)%N /\
  exists w3, runnable "t" (spin 999999) (world0 true 0 5) = (Done tt, w3) /\
    outs (trace w3) = ["t [start]"; "t [end]: took 0 ms..."].
Proof.
  refine (conj eq_refl (conj eq_refl (conj eq_refl (conj eq_refl _)))).
  destruct (C10_sub_millisecond_is_zero "t" (spin 999999) (world0 true 0 5)
              (advance 999999 (after_start "t" (world0 true 0 5))) tt)
    as (w3 & Hr & Ht); try reflexivity.
  exists w3. split; [exact Hr|]. rewrite Ht. reflexivity.
Defined.

(** ** Properties of the other code of the playground *)

(** *** errors.rs: [head] and [get] *)

Lemma get_loop_nth {A} (l : list A) (index current : N) :
  (current <= index)%N ->
  Errors.get_loop l index current =
  match nth_error l (N.to_nat (index - current)) with
  | Some x => Ok x
  | None => Err (Errors.NotFound index)
  end.
Proof.
  revert current. induction l as [|x l IH]; intros current Hle; cbn [Errors.get_loop].
  - destruct (N.to_nat (index - current)); reflexivity.
  - destruct (N.eqb_spec current index) as [->|Hne].
    + rewrite N.sub_diag. reflexivity.
    + rewrite IH by lia.
      replace (N.to_nat (index - current)) with (S (N.to_nat (index - (current + 1)))) by lia.
      reflexivity.
Qed.

(** [get] returns the element at [index] when there is one, and
    [NotFound(index)] exactly when [index] is past the end of the slice. *)
Theorem errors_get_nth {A} (array : list A) (index : N) :
  Errors.get array index =
  match nth_error array (N.to_nat index) with
  | Some x => Ok x
  | None => Err (Errors.NotFound index)
  end.
Proof.
  unfold Errors.get. rewrite get_loop_nth by lia. rewrite N.sub_0_r. reflexivity.
Qed.

(** [head] is [get] at index 0 on a non-empty slice; on an empty slice both
    fail, [head] with [EmptyVector] and [get] with [NotFound(index)]. *)
Theorem errors_head_get {A} (array : list A) (index : N) :
  Errors.head array =
    match array with [] => Err Errors.EmptyVector | _ => Errors.get array 0 end /\
  Errors.get (@nil A) index = Err (Errors.NotFound index).
Proof. split; [destruct array; reflexivity|reflexivity]. Qed.

(** *** errors.rs: the three [sum_even_numbers] and [sum5_even] *)

(** The shape of a [Result] outcome as an [Option] outcome. *)
Definition result_as_option {A E} (o : outcome (result A E)) : outcome (option A) :=
  match o with
  | Done (Ok a) => Done (Some a)
  | Done (Err _) => Done None
  | Panic m => Panic m
  end.

(** The [Result] variants fail where the [Option] variants give [None],
    succeed with the same sum and panic with the same message; the single
    sum's error message names both inputs. *)
Theorem errors_results_like_options (x y z v w : N) :
  Errors.Results.sum_even_numbers x y =
    match Errors.Options.sum_even_numbers x y with
    | Done (Some s) => Done (Ok s)
    | Done None => Done (Err (Errors.Results.illegal_inputs_msg x y))
    | Panic m => Panic m
    end /\
  result_as_option (Errors.Results.sum5_even x y z v w) =
    Errors.Options.sum5_even x y z v w.
Proof.
  assert (H1 : forall a b, Errors.Results.sum_even_numbers a b =
    match Errors.Options.sum_even_numbers a b with
    | Done (Some s) => Done (Ok s)
    | Done None => Done (Err (Errors.Results.illegal_inputs_msg a b))
    | Panic m => Panic m
    end).
  { intros a b. unfold Errors.Results.sum_even_numbers, Errors.Options.sum_even_numbers.
    destruct (Errors.is_even a && Errors.is_even b); [|reflexivity].
    destruct (uadd U8_MAX a b); reflexivity. }
  split; [apply H1|].
  unfold Errors.Results.sum5_even, Errors.Options.sum5_even,
    Errors.Results.sum, Errors.Options.sum, Errors.Results.question, Errors.Options.question.
  rewrite H1. destruct (Errors.Options.sum_even_numbers x y) as [[s|]|m]; try reflexivity.
  cbn [obind]. rewrite H1. destruct (Errors.Options.sum_even_numbers s z) as [[s2|]|m]; try reflexivity.
  cbn [obind]. rewrite H1. destruct (Errors.Options.sum_even_numbers s2 v) as [[s3|]|m]; try reflexivity.
  cbn [obind]. rewrite H1. destruct (Errors.Options.sum_even_numbers s3 w) as [[s4|]|m]; reflexivity.
Qed.

(** The [panic = "unwind"] variant (writing to stderr succeeding) returns
    0 after writing [recovering...] to stderr where the [Option] variant
    gives [None], and otherwise behaves as it does, without writing. *)
Theorem errors_unwind_recovers_with_zero (x y : N) :
  Errors.sum_even_numbers true x y =
  match Errors.Options.sum_even_numbers x y with
  | Done (Some s) => (Done s, [])
  | Done None => (Done 0%N, ["recovering..."])
  | Panic m => (Panic m, [])
  end.
Proof.
  unfold Errors.sum_even_numbers, Errors.Options.sum_even_numbers.
  destruct (Errors.is_even x && Errors.is_even y); [|reflexivity].
  destruct (uadd U8_MAX x y); reflexivity.
Qed.

Lemma is_even_add (a b : N) :
  Errors.is_even a = true -> Errors.is_even b = true -> Errors.is_even (a + b) = true.
Proof.
  unfold Errors.is_even. rewrite !N.eqb_eq. intros Ha Hb.
  rewrite N.Div0.add_mod, Ha, Hb. reflexivity.
Qed.

Lemma options_sum_even (a b : N) :
  Errors.is_even a = true -> Errors.is_even b = true ->
  Errors.Options.sum a b =
  match checked_add U8_MAX a b with Some s => Done (Some s) | None => Panic add_overflow_msg end.
Proof.
  intros Ha Hb. unfold Errors.Options.sum, Errors.Options.sum_even_numbers, uadd.
  rewrite Ha, Hb. destruct (checked_add U8_MAX a b); reflexivity.
Qed.

Lemma options_sum_odd (a b : N) :
  Errors.is_even a && Errors.is_even b = false -> Errors.Options.sum a b = Done None.
Proof. intros H. unfold Errors.Options.sum, Errors.Options.sum_even_numbers. rewrite H. reflexivity. Qed.

Lemma options_sum_small (a b : N) :
  (a + b <= U8_MAX)%N ->
  Errors.Options.sum a b =
  if Errors.is_even a && Errors.is_even b then Done (Some (a + b)%N) else Done None.
Proof.
  intros H. unfold Errors.Options.sum, Errors.Options.sum_even_numbers, uadd, checked_add.
  destruct (Errors.is_even a && Errors.is_even b); [|reflexivity].
  destruct (N.leb_spec (a + b) U8_MAX); [reflexivity|lia].
Qed.

Definition all_even (x y z v w : N) : bool :=
  Errors.is_even x && Errors.is_even y && Errors.is_even z &&
  Errors.is_even v && Errors.is_even w.

(** [sum5_even] (the [Option] variant): with five even inputs it returns
    their sum, or panics when the sum overflows a [u8]; when the sum fits, it
    returns [None] exactly when some input is odd. *)
Theorem errors_sum5_even (x y z v w : N) :
  (all_even x y z v w = true ->
   Errors.Options.sum5_even x y z v w =
     if (x + y + z + v + w <=? U8_MAX)%N then Done (Some (x + y + z + v + w)%N)
     else Panic add_overflow_msg) /\
  ((x + y + z + v + w <= U8_MAX)%N -> all_even x y z v w = false ->
   Errors.Options.sum5_even x y z v w = Done None).
Proof.
  unfold all_even, U8_MAX. split.
  - intros H. repeat rewrite andb_true_iff in H. destruct H as [[[[Ex Ey] Ez] Ev] Ew].
    pose proof (is_even_add _ _ Ex Ey) as Exy.
    pose proof (is_even_add _ _ Exy Ez) as Exyz.
    pose proof (is_even_add _ _ Exyz Ev) as Exyzv.
    unfold Errors.Options.sum5_even, Errors.Options.question.
    rewrite (options_sum_even x y Ex Ey). unfold checked_add at 1, U8_MAX.
    destruct (N.leb_spec (x + y) 255); cbn [obind];
      [|destruct (N.leb_spec (x + y + z + v + w) 255); [lia|reflexivity]].
    rewrite (options_sum_even _ z Exy Ez). unfold checked_add at 1, U8_MAX.
    destruct (N.leb_spec (x + y + z) 255); cbn [obind];
      [|destruct (N.leb_spec (x + y + z + v + w) 255); [lia|reflexivity]].
    rewrite (options_sum_even _ v Exyz Ev). unfold checked_add at 1, U8_MAX.
    destruct (N.leb_spec (x + y + z + v) 255); cbn [obind];
      [|destruct (N.leb_spec (x + y + z + v + w) 255); [lia|reflexivity]].
    rewrite (options_sum_even _ w Exyzv Ew). unfold checked_add, U8_MAX.
    destruct (N.leb_spec (x + y + z + v + w) 255); reflexivity.
  - intros Htot Hodd.
    unfold Errors.Options.sum5_even, Errors.Options.question.
    rewrite options_sum_small by (unfold U8_MAX; lia).
    destruct (Errors.is_even x) eqn:Ex, (Errors.is_even y) eqn:Ey;
      cbn [andb obind]; try reflexivity.
    rewrite options_sum_small by (unfold U8_MAX; lia).
    rewrite (is_even_add x y Ex Ey).
    destruct (Errors.is_even z) eqn:Ez; cbn [andb obind]; try reflexivity.
    rewrite options_sum_small by (unfold U8_MAX; lia).
    rewrite (is_even_add _ _ (is_even_add x y Ex Ey) Ez).
    destruct (Errors.is_even v) eqn:Ev; cbn [andb obind]; try reflexivity.
    rewrite options_sum_small by (unfold U8_MAX; lia).
    rewrite (is_even_add _ _ (is_even_add _ _ (is_even_add x y Ex Ey) Ez) Ev).
    destruct (Errors.is_even w) eqn:Ew; cbn [andb]; [|reflexivity].
    discriminate Hodd.
Qed.

Lemma errors_sum5_even_witness :
  all_even 0 2 4 6 8 = true /\
  Errors.Options.sum5_even 0 2 4 6 8 = Done (Some 20%N) /\
  (0 + 2 + 4 + 11 + 6 <= U8_MAX)%N /\ all_even 0 2 4 11 6 = false /\
  Errors.Options.sum5_even 0 2 4 11 6 = Done None.
Proof.
  refine (conj eq_refl (conj _ (conj _ (conj eq_refl _)))).
  - rewrite (proj1 (errors_sum5_even 0 2 4 6 8) eq_refl). reflexivity.
  - unfold U8_MAX; lia.
  - apply (proj2 (errors_sum5_even 0 2 4 11 6)); [unfold U8_MAX; lia|reflexivity].
Defined.

(** *** unit_testing.rs: [Num] *)

(** [sub] is [try_sub] with the error turned into the panic
    [attempt to subtract with overflow] (the message [test_sub_overflow_explicit]
    expects), and [try_sub] succeeds exactly when [other] is at most
    [self]. *)
Theorem num_sub_is_try_sub (a b : N) :
  UnitTesting.sub (UnitTesting.mkNum a) (UnitTesting.mkNum b) =
    match UnitTesting.try_sub (UnitTesting.mkNum a) (UnitTesting.mkNum b) with
    | Ok n => Done n
    | Err _ => Panic "attempt to subtract with overflow"
    end /\
  UnitTesting.try_sub (UnitTesting.mkNum a) (UnitTesting.mkNum b) =
    if (b <=? a)%N then Ok (UnitTesting.mkNum (a - b)) else Err tt.
Proof.
  unfold UnitTesting.sub, UnitTesting.try_sub, usub, checked_sub; cbn [UnitTesting.num0].
  destruct (b <=? a)%N; split; reflexivity.
Qed.

(** Adding then subtracting the same [Num] gives back the first one,
    whenever the addition does not overflow a [usize]. *)
Theorem num_add_sub (a b : N) :
  (a + b <= USIZE_MAX)%N ->
  obind (UnitTesting.add (UnitTesting.mkNum a) (UnitTesting.mkNum b))
        (fun n => UnitTesting.sub n (UnitTesting.mkNum b)) = Done (UnitTesting.mkNum a).
Proof.
  intros H. unfold UnitTesting.add, UnitTesting.sub, uadd, usub, checked_add, checked_sub;
    cbn [UnitTesting.num0].
  destruct (N.leb_spec (a + b) USIZE_MAX); [|lia]. cbn [obind UnitTesting.num0].
  destruct (N.leb_spec b (a + b)); [|lia]. cbn [obind].
  replace (a + b - b)%N with a by lia. reflexivity.
Qed.

Lemma num_add_sub_witness :
  (5 + 3 <= USIZE_MAX)%N /\
  obind (UnitTesting.add (UnitTesting.mkNum 5) (UnitTesting.mkNum 3))
        (fun n => UnitTesting.sub n (UnitTesting.mkNum 3)) = Done (UnitTesting.mkNum 5).
Proof.
  assert (H : (5 + 3 <= USIZE_MAX)%N) by (unfold USIZE_MAX; lia).
  exact (conj H (num_add_sub 5 3 H)).
Defined.

(** The body of [test_sub_chain_overflow] succeeds exactly when its first two
    subtractions stay non-negative and the third would go below zero; an
    early underflow makes the test fail through [?].  With the constants of
    the source, 5 - 3 - 1 - 5, it succeeds. *)
Theorem num_sub_chain (a b c d : N) :
  (UnitTesting.sub_chain a b c d = Ok tt <->
     (b <= a)%N /\ (c <= a - b)%N /\ (a - b - c < d)%N) /\
  UnitTesting.test_sub_chain_overflow = Ok tt.
Proof.
  split; [|reflexivity].
  unfold UnitTesting.sub_chain, UnitTesting.try_sub, checked_sub; cbn [UnitTesting.num0].
  destruct (N.leb_spec b a); [|split; [discriminate|lia]].
  cbn [UnitTesting.num0].
  destruct (N.leb_spec c (a - b)); [|split; [discriminate|lia]].
  cbn [UnitTesting.num0].
  destruct (N.leb_spec d (a - b - c)); split; (discriminate || lia || auto).
Qed.

(** *** types.rs: [TryFrom<char> for Number] *)

(** [Number::try_from] accepts exactly the ten characters '0' to '9'
    (code points 48 to 57), mapping each to its digit value, and refuses
    every other character. *)
Theorem number_try_from_digits (c : N) :
  Types.try_from c =
  if ((48 <=? c) && (c <=? 57))%N then Ok (Types.mkNumber (Z.of_N c - 48)) else Err tt.
Proof.
  destruct (N.leb_spec 48 c), (N.leb_spec c 57); cbn [andb].
  1:{ assert (c = 48 \/ c = 49 \/ c = 50 \/ c = 51 \/ c = 52 \/ c = 53 \/ c = 54
            \/ c = 55 \/ c = 56 \/ c = 57)%N as Hc by lia.
    repeat destruct Hc as [->|Hc]; [..|subst c]; reflexivity. }
  all: unfold Types.try_from, Types.digit_of;
      repeat match goal with
             | |- context [(?x =? ?k)%N] => destruct (N.eqb_spec x k); [lia|]
             end; reflexivity.
Qed.

(** *** functions.rs: [sample_function] and [increment] *)

(** On a [u32], [sample_function] returns its argument plus one, and panics
    with [attempt to add with overflow] on [u32::MAX] only. *)
Theorem sample_function_increments (arg : N) :
  (arg <= U32_MAX)%N ->
  Functions.sample_function arg =
  if (arg <? U32_MAX)%N then Done (arg + 1)%N else Panic add_overflow_msg.
Proof.
  intros H. unfold Functions.sample_function, Functions.increment, uadd, checked_add,
    Functions.one.
  destruct (N.ltb_spec arg U32_MAX), (N.leb_spec (arg + 1) U32_MAX);
    (reflexivity || lia).
Qed.

Lemma sample_function_increments_witness :
  (4294967295 <= U32_MAX)%N /\ (0 <= U32_MAX)%N /\
  Functions.sample_function 4294967295 = Panic add_overflow_msg /\
  Functions.sample_function 0 = Done 1%N.
Proof.
  assert (H1 : (4294967295 <= U32_MAX)%N) by (unfold U32_MAX; lia).
  assert (H0 : (0 <= U32_MAX)%N) by lia.
  refine (conj H1 (conj H0 (conj _ _))).
  - rewrite (sample_function_increments 4294967295 H1). reflexivity.
  - rewrite (sample_function_increments 0 H0). reflexivity.
Defined.

(** *** pattern_matching.rs: [value_matching] *)

(** For every [i32], the guarded arm [int if int <= 0 && int > 40]
    ("Match zero") is never selected, and the [otherwise] arm is selected
    exactly for the values outside [1], [2 | 4 | 7], [10..20] and
    [30..40] (ranges exclusive of their end). *)
Theorem value_matching_dead_guard (n : Z) :
  PatternMatching.value_matching_arm n <> 4%nat /\
  (PatternMatching.value_matching_arm n = 5%nat <->
     ~ (n = 1 \/ n = 2 \/ n = 4 \/ n = 7 \/ (10 <= n < 20) \/ (30 <= n < 40))%Z).
Proof.
  unfold PatternMatching.value_matching_arm.
  destruct (Z.eqb_spec n 1); [split; [discriminate|split; [discriminate|lia]]|].
  destruct (Z.eqb_spec n 2), (Z.eqb_spec n 4), (Z.eqb_spec n 7); cbn [orb];
    try (split; [discriminate|split; [discriminate|lia]]).
  destruct (Z.leb_spec 10 n), (Z.ltb_spec n 20); cbn [andb];
    try (split; [discriminate|split; [discriminate|lia]]).
  all: destruct (Z.leb_spec 30 n), (Z.ltb_spec n 40); cbn [andb];
    try (split; [discriminate|split; [discriminate|lia]]).
  all: destruct (Z.leb_spec n 0), (Z.ltb_spec 40 n); cbn [andb]; try lia.
Qed.

(** *** macros.rs: [check!(not ...)] on a [u8] *)

(** On every [u8], [check!(not x)] is [255 - x], as the comment next to
    [check!(not 100u8)] says. *)
Theorem check_not_u8_complement (x : N) :
  (x <= U8_MAX)%N -> Macros.check_not_u8 x = (U8_MAX - x)%N.
Proof.
  intros Hx.
  assert (Hall : forallb (fun k => N.eqb (Macros.check_not_u8 (N.of_nat k)) (U8_MAX - N.of_nat k))
                   (seq 0 256) = true) by (vm_compute; reflexivity).
  rewrite forallb_forall in Hall. specialize (Hall (N.to_nat x)).
  rewrite in_seq, N2Nat.id in Hall. apply N.eqb_eq, Hall. unfold U8_MAX in Hx. lia.
Qed.

Lemma check_not_u8_complement_witness :
  (100 <= U8_MAX)%N /\ Macros.check_not_u8 100 = 155%N.
Proof.
  assert (H : (100 <= U8_MAX)%N) by (unfold U8_MAX; lia).
  split; [exact H|]. rewrite (check_not_u8_complement 100 H). reflexivity.
Defined.

(** *** main.rs and bin/main.rs *)

Lemma collect_args_valid (debug_os : string -> string) (args_os : list string) :
  forallb Main.utf8_valid args_os = true ->
  Main.collect_args debug_os args_os = Done args_os.
Proof.
  induction args_os as [|a rest IH]; cbn; [reflexivity|].
  destruct (Main.utf8_valid a); [|discriminate]. cbn. intros H.
  rewrite (IH H). reflexivity.
Qed.

Lemma collect_args_first_invalid (debug_os : string -> string)
    (pre : list string) (bad : string) (post : list string) :
  forallb Main.utf8_valid pre = true ->
  Main.utf8_valid bad = false ->
  Main.collect_args debug_os (pre ++ bad :: post) = Panic (Main.unwrap_err_msg debug_os bad).
Proof.
  intros Hpre Hbad. induction pre as [|a pre IH]; cbn in *.
  - rewrite Hbad. reflexivity.
  - destruct (Main.utf8_valid a); [|discriminate]. rewrite (IH Hpre). reflexivity.
Qed.

(** With at least the program name among the process arguments, all of
    them valid Unicode, and standard output writable, the [main] of
    main.rs prints its two greetings and then the [Running ...] line,
    while the [main] of bin/main.rs prints the [Running ...] line first and
    then [Hello, world!]; both complete. *)
Theorem mains_with_program_name (debug_str debug_os : string -> string)
    (program : string) (rest : list string) (w : world) :
  forallb Main.utf8_valid (program :: rest) = true ->
  stdout_writable w = true ->
  (exists w', Main.main debug_str debug_os (program :: rest) w = (Done tt, w') /\
     outs (trace w') = (outs (trace w) ++
       ["Hello, world!"; "I'm a Rustacean"; Main.running_line debug_str program rest])%list) /\
  (exists w', Main.bin_main debug_str debug_os (program :: rest) w = (Done tt, w') /\
     outs (trace w') = (outs (trace w) ++
       [Main.running_line debug_str program rest; "Hello, world!"])%list).
Proof.
  intros Hu. pose proof (collect_args_valid debug_os _ Hu) as Hc.
  destruct w as [tr ok clk wt]; cbn [stdout_writable]; intros ->.
  split; (eexists; split;
    [unfold Main.main, Main.bin_main, bind, Main.env_args, Main.index0, println;
     cbn [stdout_writable log advance]; rewrite Hc; reflexivity|]);
    cbn [trace log advance]; rewrite !outs_app, <- !app_assoc; reflexivity.
Qed.

Lemma mains_with_program_name_witness :
  forallb Main.utf8_valid ["prog"; "a"] = true /\
  stdout_writable (world0 true 0 0) = true /\
  exists w', Main.bin_main (fun s => s) (fun s => s) ["prog"; "a"] (world0 true 0 0)
             = (Done tt, w') /\
    outs (trace w') = ["Running prog with arguments [a]"; "Hello, world!"].
Proof.
  split; [reflexivity|]. split; [reflexivity|].
  destruct (proj2 (mains_with_program_name (fun s => s) (fun s => s) "prog" ["a"]
                     (world0 true 0 0) eq_refl eq_refl))
    as (w' & H1 & H2).
  exists w'. split; [exact H1|]. rewrite H2. reflexivity.
Defined.

(** With no arguments at all, [&args[0]] panics: the [main] of main.rs has
    printed its two greetings by then, the [main] of bin/main.rs has printed
    nothing. *)
Theorem mains_without_arguments (debug_str debug_os : string -> string) (w : world) :
  stdout_writable w = true ->
  (exists w', Main.main debug_str debug_os [] w = (Panic Main.index_msg, w') /\
     outs (trace w') = (outs (trace w) ++ ["Hello, world!"; "I'm a Rustacean"])%list) /\
  Main.bin_main debug_str debug_os [] w = (Panic Main.index_msg, w).
Proof.
  destruct w as [tr ok clk wt]; cbn [stdout_writable]; intros ->.
  split; [|reflexivity].
  eexists; split;
    [unfold Main.main, bind, Main.env_args, Main.index0, println;
     cbn [stdout_writable log advance]; reflexivity|].
  cbn [trace log advance]. rewrite !outs_app, <- !app_assoc. reflexivity.
Qed.

Lemma mains_without_arguments_witness :
  stdout_writable (world0 true 0 0) = true /\
  Main.bin_main (fun s => s) (fun s => s) [] (world0 true 0 0) =
    (Panic Main.index_msg, world0 true 0 0).
Proof.
  split; [reflexivity|].
  exact (proj2 (mains_without_arguments (fun s => s) (fun s => s) (world0 true 0 0) eq_refl)).
Defined.

(** A process argument that is not valid Unicode makes [std::env::args()]
    panic while the arguments are collected, with the [unwrap] message
    naming the first such argument: the [main] of main.rs has printed its
    two greetings by then and prints nothing more, the [main] of
    bin/main.rs prints nothing at all. *)
Theorem mains_non_unicode_argument (debug_str debug_os : string -> string)
    (pre : list string) (bad : string) (post : list string) (w : world) :
  forallb Main.utf8_valid pre = true ->
  Main.utf8_valid bad = false ->
  stdout_writable w = true ->
  (exists w', Main.main debug_str debug_os (pre ++ bad :: post) w =
                (Panic (Main.unwrap_err_msg debug_os bad), w') /\
     outs (trace w') = (outs (trace w) ++ ["Hello, world!"; "I'm a Rustacean"])%list) /\
  Main.bin_main debug_str debug_os (pre ++ bad :: post) w =
    (Panic (Main.unwrap_err_msg debug_os bad), w).
Proof.
  intros Hpre Hbad. pose proof (collect_args_first_invalid debug_os pre bad post Hpre Hbad) as Hc.
  destruct w as [tr ok clk wt]; cbn [stdout_writable]; intros ->.
  split.
  - eexists; split;
      [unfold Main.main, bind, Main.env_args, println;
       cbn [stdout_writable log advance]; rewrite Hc; reflexivity|].
    cbn [trace log advance]. rewrite !outs_app, <- !app_assoc. reflexivity.
  - unfold Main.bin_main, bind, Main.env_args. rewrite Hc. reflexivity.
Qed.

Lemma mains_non_unicode_argument_witness :
  forallb Main.utf8_valid ["prog"] = true /\
  Main.utf8_valid (String "255"%char EmptyString) = false /\
  stdout_writable (world0 true 0 0) = true /\
  Main.bin_main (fun s => s) (fun s => s) ["prog"; String "255"%char EmptyString]
    (world0 true 0 0) =
    (Panic ("called `Result::unwrap()` on an `Err` value: " ++ String "255"%char EmptyString),
     world0 true 0 0).
Proof.
  split; [reflexivity|]. split; [reflexivity|]. split; [reflexivity|].
  exact (proj2 (mains_non_unicode_argument (fun s => s) (fun s => s) ["prog"]
                  (String "255"%char EmptyString) [] (world0 true 0 0)
                  eq_refl eq_refl eq_refl)).
Defined.
